(** * Image Compressor: the controller of [src/index.tsx]

    A shallow embedding of the React component [App] and of the helpers
    [formatBytes] and [Icon], with the properties its specification states
    and further properties read off the code.

    Conventions of the embedding.
    - The component's nine [useState] cells are the fields of [Session];
      what the handlers do to the browser (object URLs created and revoked,
      calls of the [imageCompression] library, downloads) is recorded in
      [Browser].  A handler is a computation in a small state monad over
      both.
    - [handleCompress] is [async]: it is split at its [await] into the part
      that runs on the click and the part that runs when the promise of
      [imageCompression] settles.
    - The compression options are JavaScript numbers: they are binary64
      floats here ([PrimFloat]).
    - [formatBytes] is applied to byte counts, which are integers: its
      argument is a [Z] and the scaled value is an exact rational. *)

From Stdlib Require Import String Ascii List Bool ZArith QArith Qround Lia.
From Stdlib Require Import Floats DecimalString.
From Stdlib Require Uint63.
Import ListNotations.

#[local] Set Warnings "-inexact-float".
#[local] Open Scope string_scope.
#[local] Open Scope Z_scope.

(** ** JavaScript numbers printed as decimals *)

Module JS.

(** The decimal digits of a non-negative integer. *)
Definition digits (n : Z) : string :=
  NilZero.string_of_uint (N.to_uint (Z.to_N n)).

(** [repeat0 n] is the string of [n] zeros. *)
Fixpoint repeat0 (n : nat) : string :=
  match n with
  | O => ""
  | S n' => String "0" (repeat0 n')
  end.

(** [Number.prototype.toFixed(f)] on a non-negative value [x] (ECMA-262,
    21.1.3.3): [n] is the integer for which [n / 10^f - x] is closest to
    zero, the larger one on a tie; its digits are padded with zeros to
    [f + 1] characters and the point is put before the last [f].  ([f] is
    between 0 and 100; JavaScript raises a RangeError otherwise.) *)
Definition toFixed (x : Q) (f : Z) : string :=
  let n := Qfloor (x * inject_Z (10 ^ f) + (1 # 2)) in
  let m := digits n in
  if f =? 0 then m
  else
    let fd := Z.to_nat f in
    let m := repeat0 (S fd - String.length m) ++ m in
    let k := String.length m in
    substring 0 (k - fd) m ++ "." ++ substring (k - fd) fd m.

(** The value of a decimal digit character, if it is one. *)
Definition digit_of (c : ascii) : option Z :=
  let n := Z.of_nat (nat_of_ascii c) in
  if (48 <=? n) && (n <=? 57) then Some (n - 48) else None.

(** Reads the digits at the front of [s]: the number read so far is
    [acc], and [cnt] counts the digits read. *)
Fixpoint read_digits (s : string) (acc : Z) (cnt : nat) : Z * nat * string :=
  match s with
  | EmptyString => (acc, cnt, s)
  | String c s' =>
      match digit_of c with
      | Some d => read_digits s' (10 * acc + d) (S cnt)
      | None => (acc, cnt, s)
      end
  end.

(** [parseFloat] on the strings [toFixed] produces for a non-negative
    value: digits, then optionally a point and digits.  The result is the
    rational the string denotes. *)
Definition parseFloat (s : string) : Q :=
  let '(ip, _, rest) := read_digits s 0 O in
  match rest with
  | String "." frac =>
      let '(m, cnt, _) := read_digits frac ip O in
      Qmake m (Z.to_pos (10 ^ Z.of_nat cnt))
  | _ => inject_Z ip
  end.

(** The digits of [r / d] after the point, for [0 <= r < d], until the
    remainder is zero. *)
Fixpoint frac_digits (fuel : nat) (r d : Z) : string :=
  match fuel with
  | O => ""
  | S fuel' =>
      if r =? 0 then ""
      else digits (10 * r / d) ++ frac_digits fuel' (10 * r mod d) d
  end.

(** [Number::toString] on a non-negative number with a short decimal
    expansion, as [x + ' '] converts it: the integer part, and the
    fractional digits without trailing zeros when there are any. *)
Definition toString (x : Q) : string :=
  let n := Qnum x in
  let d := Zpos (Qden x) in
  let frac := frac_digits 21 (n mod d) d in
  if String.eqb frac "" then digits (n / d)
  else digits (n / d) ++ "." ++ frac.

(** [Math.floor(Math.log(n) / Math.log(k))] for an integer [n >= 1] and a
    base [k >= 2], taken exactly: the number of times [n] can be divided by
    [k] before it falls below [k].  (For [k = 1024] the binary64 quotient is
    exact at the powers of [k] that a byte count reaches, and elsewhere it
    is further from an integer than its rounding error.) *)
Fixpoint floor_log_fuel (fuel : nat) (n k : Z) : Z :=
  match fuel with
  | O => 0
  | S fuel' => if n <? k then 0 else 1 + floor_log_fuel fuel' (n / k) k
  end.

Definition floor_log (n k : Z) : Z :=
  floor_log_fuel (Z.to_nat (Z.log2 n)) n k.

(** [a[i]] on an array of strings, converted to a string: out of range it
    is [undefined]. *)
Definition index (a : list string) (i : Z) : string :=
  if i <? 0 then "undefined" else nth (Z.to_nat i) a "undefined".

End JS.

(** ** [formatBytes] (lines 18-25) *)

Definition sizes : list string := ["Bytes"; "KB"; "MB"; "GB"].

(** The scaled value as it is printed:
    [parseFloat((bytes / Math.pow(k, i)).toFixed(dm))] converted to a
    string. *)
Definition scaled (bytes k i dm : Z) : string :=
  JS.toString (JS.parseFloat (JS.toFixed (inject_Z bytes / inject_Z (k ^ i)) dm)).

(** [decimals] is [None] when the caller leaves the argument out; its
    default is 2.  The logarithm of a negative number is [NaN], which every
    later step propagates: the result is then ["NaN undefined"]. *)
Definition formatBytes (bytes : Z) (decimals : option Z) : string :=
  let decimals := match decimals with Some d => d | None => 2 end in
  if bytes =? 0 then "0 Bytes"
  else if bytes <? 0 then "NaN undefined"
  else
    let k := 1024 in
    let dm := if decimals <? 0 then 0 else decimals in
    let i := JS.floor_log bytes k in
    scaled bytes k i dm ++ " " ++ JS.index sizes i.

(** ** The session and the browser *)

(** A [File] (or [Blob]) as the controller sees it. *)
Record File := mkFile { size : Z; type : string; name : string }.

(** The value of a preview-URL cell: the empty string, or the object URL
    that the [id]-th call of [URL.createObjectURL] returned. *)
Inductive url := EmptyUrl | BlobUrl (id : nat).

(** The three values [appState] takes (line 38).  ['compressing'] is the
    view in which the preset is chosen and the compression is started. *)
Inductive AppState := upload | compressing | done.

(** The [useState] cells of [App] (lines 28-38). *)
Record Session := mkSession {
  originalFile : option File;
  compressedFile : option File;
  originalImageUrl : url;
  compressedImageUrl : url;
  compressionLevel : string;
  customQuality : float;
  isCompressing : bool;
  error : string;
  appState : AppState
}.

(** What [getCompressionOptions] returns, and what [imageCompression] is
    called with: the same two numbers and [useWebWorker].  ([onProgress]
    only writes to the console.) *)
Record CompressionOptions := mkOptions { maxSizeMB : float; initialQuality : float }.

Record Call := mkCall {
  call_file : File;
  call_options : CompressionOptions;
  useWebWorker : bool
}.

(** The part of the browser the handlers act on. *)
Record Browser := mkBrowser {
  created : nat;                    (* object URLs created so far: ids 0 .. created - 1 *)
  revoked : list url;               (* arguments of URL.revokeObjectURL, oldest first *)
  calls : list Call;                (* calls of imageCompression, oldest first *)
  pending : nat;                    (* promises of imageCompression not yet settled *)
  downloads : list (url * string)   (* href and download name of the links clicked *)
}.

Record World := mkWorld { session : Session; browser : Browser }.

Definition initialSession : Session :=
  {| originalFile := None; compressedFile := None;
     originalImageUrl := EmptyUrl; compressedImageUrl := EmptyUrl;
     compressionLevel := "Medium"; customQuality := 70%float;
     isCompressing := false; error := ""; appState := upload |}.

Definition initialBrowser : Browser :=
  {| created := O; revoked := []; calls := []; pending := O; downloads := [] |}.

Definition initialWorld : World := mkWorld initialSession initialBrowser.

(** ** A state monad over the world *)

Definition M (A : Type) : Type := World -> A * World.

Definition ret {A} (a : A) : M A := fun w => (a, w).
Definition bind {A B} (c : M A) (k : A -> M B) : M B :=
  fun w => let '(a, w') := c w in k a w'.
Definition exec {A} (c : M A) (w : World) : World := snd (c w).

Declare Scope js_scope.
Delimit Scope js_scope with js.
Notation "x <- c ;; k" := (bind c (fun x => k))
  (at level 61, c at next level, right associativity) : js_scope.
Notation "c ;; k" := (bind c (fun _ => k))
  (at level 61, right associativity) : js_scope.

Definition modSession (f : Session -> Session) : M unit :=
  fun w => (tt, mkWorld (f (session w)) (browser w)).
Definition modBrowser (f : Browser -> Browser) : M unit :=
  fun w => (tt, mkWorld (session w) (f (browser w))).

(** The setters of the [useState] cells. *)
Definition setOriginalFile (v : option File) : M unit :=
  modSession (fun s => mkSession v (compressedFile s) (originalImageUrl s)
    (compressedImageUrl s) (compressionLevel s) (customQuality s)
    (isCompressing s) (error s) (appState s)).
Definition setCompressedFile (v : option File) : M unit :=
  modSession (fun s => mkSession (originalFile s) v (originalImageUrl s)
    (compressedImageUrl s) (compressionLevel s) (customQuality s)
    (isCompressing s) (error s) (appState s)).
Definition setOriginalImageUrl (v : url) : M unit :=
  modSession (fun s => mkSession (originalFile s) (compressedFile s) v
    (compressedImageUrl s) (compressionLevel s) (customQuality s)
    (isCompressing s) (error s) (appState s)).
Definition setCompressedImageUrl (v : url) : M unit :=
  modSession (fun s => mkSession (originalFile s) (compressedFile s)
    (originalImageUrl s) v (compressionLevel s) (customQuality s)
    (isCompressing s) (error s) (appState s)).
Definition setCompressionLevel (v : string) : M unit :=
  modSession (fun s => mkSession (originalFile s) (compressedFile s)
    (originalImageUrl s) (compressedImageUrl s) v (customQuality s)
    (isCompressing s) (error s) (appState s)).
Definition setCustomQuality (v : float) : M unit :=
  modSession (fun s => mkSession (originalFile s) (compressedFile s)
    (originalImageUrl s) (compressedImageUrl s) (compressionLevel s) v
    (isCompressing s) (error s) (appState s)).
Definition setIsCompressing (v : bool) : M unit :=
  modSession (fun s => mkSession (originalFile s) (compressedFile s)
    (originalImageUrl s) (compressedImageUrl s) (compressionLevel s)
    (customQuality s) v (error s) (appState s)).
Definition setError (v : string) : M unit :=
  modSession (fun s => mkSession (originalFile s) (compressedFile s)
    (originalImageUrl s) (compressedImageUrl s) (compressionLevel s)
    (customQuality s) (isCompressing s) v (appState s)).
Definition setAppState (v : AppState) : M unit :=
  modSession (fun s => mkSession (originalFile s) (compressedFile s)
    (originalImageUrl s) (compressedImageUrl s) (compressionLevel s)
    (customQuality s) (isCompressing s) (error s) v).

(** [URL.createObjectURL]: a URL that no earlier call returned. *)
Definition URL_createObjectURL (f : File) : M url :=
  fun w =>
    let b := browser w in
    (BlobUrl (created b),
     mkWorld (session w)
       (mkBrowser (S (created b)) (revoked b) (calls b) (pending b) (downloads b))).

(** [URL.revokeObjectURL]. *)
Definition URL_revokeObjectURL (u : url) : M unit :=
  modBrowser (fun b =>
    mkBrowser (created b) (revoked b ++ [u])%list (calls b) (pending b) (downloads b)).

(** The call [imageCompression(file, options)]: it returns a promise, which
    settles later. *)
Definition imageCompression (f : File) (o : CompressionOptions) : M unit :=
  modBrowser (fun b =>
    mkBrowser (created b) (revoked b) (calls b ++ [mkCall f o true])%list
      (S (pending b)) (downloads b)).

(** One pending promise settles. *)
Definition settle : M unit :=
  modBrowser (fun b =>
    mkBrowser (created b) (revoked b) (calls b) (Nat.pred (pending b)) (downloads b)).

(** The link that [handleDownload] builds and clicks. *)
Definition clickLink (href : url) (download : string) : M unit :=
  modBrowser (fun b =>
    mkBrowser (created b) (revoked b) (calls b) (pending b)
      (downloads b ++ [(href, download)])%list).

Definition getSession : M Session := fun w => (session w, w).

#[local] Open Scope js_scope.

(** ** The handlers of [App] *)

Definition acceptedTypes : list string := ["image/jpeg"; "image/png"; "image/webp"].

(** [a.includes(x)] on an array of strings. *)
Definition includes (a : list string) (x : string) : bool :=
  existsb (String.eqb x) a.

Definition validationMessage : string :=
  "Please upload a valid JPG, PNG, or WebP image.".

Definition compressionFailureMessage : string :=
  "Failed to compress image. It might be too small or in an unsupported format.".

(** [handleFileChange] (lines 46-56); [file] is [event.target.files[0]],
    [None] when the selection is empty. *)
Definition handleFileChange (file : option File) : M unit :=
  match file with
  | Some f =>
      if includes acceptedTypes (type f) then
        setOriginalFile (Some f) ;;
        u <- URL_createObjectURL f ;;
        setOriginalImageUrl u ;;
        setError "" ;;
        setAppState compressing
      else
        setError validationMessage
  | None => setError validationMessage
  end.

(** [getCompressionOptions] (lines 58-70), as a function of the two cells
    it reads.  ['Medium'] shares the [default] branch. *)
Definition getCompressionOptions (compressionLevel : string) (customQuality : float)
  : CompressionOptions :=
  if String.eqb compressionLevel "Low" then
    {| maxSizeMB := 1; initialQuality := 0.8 |}
  else if String.eqb compressionLevel "High" then
    {| maxSizeMB := 0.1; initialQuality := 0.4 |}
  else if String.eqb compressionLevel "Custom" then
    {| maxSizeMB := 2; initialQuality := customQuality / 100 |}
  else
    {| maxSizeMB := 0.5; initialQuality := 0.6 |}.

(** [handleCompress] (lines 72-85), up to its [await]. *)
Definition handleCompress : M unit :=
  s <- getSession ;;
  match originalFile s with
  | None => ret tt
  | Some f =>
      setIsCompressing true ;;
      setError "" ;;
      let options := getCompressionOptions (compressionLevel s) (customQuality s) in
      imageCompression f options
  end.

(** [handleCompress] (lines 85-95), from its [await] on: the promise is
    fulfilled with [Some compressed] or rejected ([None]). *)
Definition handleCompress_settled (outcome : option File) : M unit :=
  settle ;;
  match outcome with
  | Some compressed =>
      setCompressedFile (Some compressed) ;;
      u <- URL_createObjectURL compressed ;;
      setCompressedImageUrl u ;;
      setAppState done
  | None =>
      setError compressionFailureMessage ;;
      setAppState upload
  end ;;
  setIsCompressing false.

(** [handleDownload] (lines 98-106).  Without an original file the template
    string would throw before the link is clicked. *)
Definition handleDownload : M unit :=
  s <- getSession ;;
  match compressedFile s with
  | None => ret tt
  | Some _ =>
      match originalFile s with
      | Some f => clickLink (compressedImageUrl s) ("compressed-" ++ name f)
      | None => ret tt
      end
  end.

(** [handleReset] (lines 108-122).  The file input is not part of the
    session. *)
Definition handleReset : M unit :=
  s <- getSession ;;
  URL_revokeObjectURL (originalImageUrl s) ;;
  URL_revokeObjectURL (compressedImageUrl s) ;;
  setOriginalFile None ;;
  setCompressedFile None ;;
  setOriginalImageUrl EmptyUrl ;;
  setCompressedImageUrl EmptyUrl ;;
  setCompressionLevel "Medium" ;;
  setCustomQuality 70 ;;
  setError "" ;;
  setAppState upload.

(** ** The views and the events they accept *)

(** What can happen to a mounted [App]. *)
Inductive Event :=
| FileInputChange (file : option File)  (* the file input of the upload view (line 149) *)
| LevelClick (level : string)           (* a preset button (line 178) *)
| QualityInput (value : float)          (* the range input (line 200), after parseInt *)
| CompressClick                         (* the compress button (lines 206-209) *)
| DownloadClick                         (* line 256 *)
| ResetClick                            (* line 262 *)
| Settled (outcome : option File).      (* the promise awaited at line 85 settles *)

Definition levels : list string := ["Low"; "Medium"; "High"; "Custom"].

Definition AppState_eqb (a b : AppState) : bool :=
  match a, b with
  | upload, upload | compressing, compressing | done, done => true
  | _, _ => false
  end.

(** An event can occur when the view that carries its control is rendered
    (lines 279-281) and the control is there and not disabled: one button
    per level (line 175), the range input under ['Custom'] only (line 187),
    the compress button [disabled={isCompressing}] (line 208).  A promise
    settles only when one is pending. *)
Definition enabled (w : World) (e : Event) : bool :=
  let s := session w in
  match e with
  | FileInputChange _ => AppState_eqb (appState s) upload
  | LevelClick level => AppState_eqb (appState s) compressing && includes levels level
  | QualityInput _ =>
      AppState_eqb (appState s) compressing && String.eqb (compressionLevel s) "Custom"
  | CompressClick => AppState_eqb (appState s) compressing && negb (isCompressing s)
  | DownloadClick => AppState_eqb (appState s) done
  | ResetClick => AppState_eqb (appState s) done
  | Settled _ => negb (Nat.eqb (pending (browser w)) 0)
  end.

(** The handler bound to each control. *)
Definition handler (e : Event) : M unit :=
  match e with
  | FileInputChange file => handleFileChange file
  | LevelClick level => setCompressionLevel level
  | QualityInput value => setCustomQuality value
  | CompressClick => handleCompress
  | DownloadClick => handleDownload
  | ResetClick => handleReset
  | Settled outcome => handleCompress_settled outcome
  end.

(** One event: an event that cannot occur leaves the world as it is. *)
Definition step (w : World) (e : Event) : World :=
  if enabled w e then exec (handler e) w else w.

Definition run (w : World) (es : list Event) : World := fold_left step es w.

(** The worlds a session can be in. *)
Definition reachable (w : World) : Prop := exists es, w = run initialWorld es.

(** ** Preview handles *)

(** How many times the object URL [id] has been revoked. *)
Definition url_is (id : nat) (u : url) : bool :=
  match u with
  | BlobUrl j => Nat.eqb id j
  | EmptyUrl => false
  end.

Definition releases (id : nat) (w : World) : nat :=
  length (filter (url_is id) (revoked (browser w))).

(** The object URL [id] is held by one of the two preview cells. *)
Definition held (id : nat) (w : World) : Prop :=
  originalImageUrl (session w) = BlobUrl id \/
  compressedImageUrl (session w) = BlobUrl id.

(** The discipline the handlers do keep: a URL is revoked at most once, no
    URL is revoked before it is created, the URLs in the two cells exist and
    are not revoked, and the two cells never hold the same URL. *)
Definition tidy (w : World) : Prop :=
  (forall id, (releases id w <= 1)%nat) /\
  (forall id, (created (browser w) <= id)%nat -> releases id w = O) /\
  (forall id, held id w -> (id < created (browser w))%nat /\ releases id w = O) /\
  (forall id, originalImageUrl (session w) = BlobUrl id ->
              compressedImageUrl (session w) <> BlobUrl id).

(** Every event of [es] can occur when its turn comes. *)
Fixpoint feasible (w : World) (es : list Event) : bool :=
  match es with
  | [] => true
  | e :: es' => enabled w e && feasible (step w e) es'
  end.

(** ** Sample files and traces *)

Definition jpeg : File := mkFile 2097152 "image/jpeg" "photo.jpg".
Definition png : File := mkFile 512000 "image/png" "shot.png".
Definition pdf : File := mkFile 4096 "application/pdf" "notes.pdf".
Definition small : File := mkFile 150000 "image/jpeg" "photo.jpg".

(** A compression that fails, a second upload, a compression that succeeds,
    and a reset. *)
Definition failure_then_success : list Event :=
  [FileInputChange (Some jpeg); CompressClick; Settled None;
   FileInputChange (Some png); CompressClick; Settled (Some small); ResetClick].

(** ** The shape of the reachable sessions *)

(** What each view implies for the compressed result, the flag and the
    pending promise. *)
Definition shape (w : World) : Prop :=
  let s := session w in
  match appState s with
  | upload =>
      compressedFile s = None /\ compressedImageUrl s = EmptyUrl /\
      isCompressing s = false /\ pending (browser w) = O
  | compressing =>
      originalFile s <> None /\
      compressedFile s = None /\ compressedImageUrl s = EmptyUrl /\
      pending (browser w) = (if isCompressing s then 1%nat else O)
  | done =>
      originalFile s <> None /\
      compressedFile s <> None /\ compressedImageUrl s <> EmptyUrl /\
      isCompressing s = false /\ pending (browser w) = O
  end.

(** ** Checks by enumeration *)

(** The whole multiples [n * 1024^i], [1 <= n <= 1023], of unit [i]. *)
Definition multiples_ok (i : nat) : bool :=
  forallb
    (fun n : nat =>
       String.eqb (formatBytes (Z.of_nat n * 1024 ^ Z.of_nat i) None)
                  (JS.digits (Z.of_nat n) ++ " " ++ nth i sizes ""))
    (seq 1 1023).

(** The number that [parseInt(e.target.value, 10)] gives at position [n]
    of the range input (line 200). *)
Definition sliderValue (n : Z) : float := PrimFloat.of_uint63 (Uint63.of_Z n).

(** The options are usable: a positive size limit and a quality in (0, 1]. *)
Definition options_ok (o : CompressionOptions) : bool :=
  PrimFloat.ltb 0 (maxSizeMB o) &&
  PrimFloat.ltb 0 (initialQuality o) && PrimFloat.leb (initialQuality o) 1.

Definition slider_ok (level : string) : bool :=
  forallb (fun n : nat => options_ok (getCompressionOptions level (sliderValue (Z.of_nat n))))
          (seq 1 100).

(** The events of the preset buttons and of the range input. *)
Definition is_setting (e : Event) : bool :=
  match e with
  | LevelClick _ | QualityInput _ => true
  | _ => false
  end.

(** ** More of what the reachable sessions keep *)

(** The level is one of the four buttons; the original file and its
    preview URL come and go together, and the file has an accepted type; an
    error message is one of the two fixed ones and is there in the upload
    view only; every call of [imageCompression] was made with an accepted
    file, with the options of one of the four levels and with
    [useWebWorker: true]. *)
Definition consistent (w : World) : Prop :=
  let s := session w in
  In (compressionLevel s) levels /\
  (originalFile s = None <-> originalImageUrl s = EmptyUrl) /\
  (forall f, originalFile s = Some f -> In (type f) acceptedTypes) /\
  (appState s <> upload -> error s = "") /\
  (error s = "" \/ error s = validationMessage \/
   error s = compressionFailureMessage) /\
  Forall (fun c =>
            useWebWorker c = true /\
            In (type (call_file c)) acceptedTypes /\
            exists level q, In level levels /\
                            call_options c = getCompressionOptions level q)
         (calls (browser w)).



(** The object URL [id] was created, is in neither cell and has not been
    revoked. *)
Definition lost (id : nat) (w : World) : Prop :=
  (id < created (browser w))%nat /\ ~ held id w /\ releases id w = O.

(** ** [Icon] (lines 12-16) *)

Definition in_range (lo hi : nat) (c : ascii) : bool :=
  (lo <=? nat_of_ascii c)%nat && (nat_of_ascii c <=? hi)%nat.

(** The character classes [[A-Z]] and [[a-z0-9]]. *)
Definition is_upper (c : ascii) : bool := in_range 65 90 c.
Definition is_lower_or_digit (c : ascii) : bool :=
  in_range 97 122 c || in_range 48 57 c.

(** [name.replace(/([a-z0-9]|(?=[A-Z]))([A-Z])/g, '$1-$2')].  The matcher
    goes through the string from the left.  At a position it first tries
    the first alternative: a character of [[a-z0-9]] followed by one of
    [[A-Z]]; both are consumed and a hyphen is put between them.  Failing
    that, the second alternative (the lookahead) matches the empty string
    before a character of [[A-Z]], which is consumed and gets a hyphen in
    front.  Otherwise the character is copied. *)
Fixpoint replaceCamel (s : string) : string :=
  match s with
  | EmptyString => EmptyString
  | String c rest =>
      match rest with
      | String d rest' =>
          if is_lower_or_digit c && is_upper d then
            String c (String "-" (String d (replaceCamel rest')))
          else if is_upper c then String "-" (String c (replaceCamel rest))
          else String c (replaceCamel rest)
      | EmptyString =>
          if is_upper c then String "-" (String c EmptyString)
          else String c EmptyString
      end
  end.

(** [toLowerCase] on text of 7-bit characters. *)
Definition lower (c : ascii) : ascii :=
  if is_upper c then ascii_of_nat (nat_of_ascii c + 32) else c.

Fixpoint toLowerCase (s : string) : string :=
  match s with
  | EmptyString => EmptyString
  | String c rest => String (lower c) (toLowerCase rest)
  end.

(** The value of the [data-lucide] attribute (line 14). *)
Definition iconName (name : string) : string := toLowerCase (replaceCamel name).

(** All characters of [s] are 7-bit. *)
Fixpoint ascii7 (s : string) : bool :=
  match s with
  | EmptyString => true
  | String c rest => (nat_of_ascii c <? 128)%nat && ascii7 rest
  end.

(** Character by character: a hyphen and the lower-case letter for an
    upper-case letter, the character itself otherwise. *)
Fixpoint hyphenated (s : string) : string :=
  match s with
  | EmptyString => EmptyString
  | String c rest =>
      if is_upper c then String "-" (String (lower c) (hyphenated rest))
      else String c (hyphenated rest)
  end.

(** The replacement, character by character: a hyphen goes in front of
    every upper-case letter. *)
Fixpoint hyphens (s : string) : string :=
  match s with
  | EmptyString => EmptyString
  | String c rest =>
      if is_upper c then String "-" (String c (hyphens rest))
      else String c (hyphens rest)
  end.

(** The number of upper-case letters of [s]. *)
Fixpoint uppers (s : string) : nat :=
  match s with
  | EmptyString => O
  | String c rest => ((if is_upper c then 1 else 0) + uppers rest)%nat
  end.

Lemma run_snoc (w : World) (es : list Event) (e : Event) :
  run w (es ++ [e])%list = step (run w es) e.
Proof. unfold run. now rewrite fold_left_app. Qed.

(** Induction over the reachable worlds. *)
Lemma reachable_ind (P : World -> Prop) :
  P initialWorld ->
  (forall w e, reachable w -> P w -> enabled w e = true -> P (exec (handler e) w)) ->
  forall w, reachable w -> P w.
Proof.
  intros Hinit Hstep w [es ->].
  induction es as [|e es IH] using rev_ind; [exact Hinit|].
  rewrite run_snoc. unfold step.
  destruct (enabled (run initialWorld es) e) eqn:He; [|exact IH].
  apply Hstep; [now exists es | exact IH | exact He].
Qed.

Lemma reachable_step (w : World) (e : Event) :
  reachable w -> reachable (step w e).
Proof. intros [es ->]. exists (es ++ [e])%list. now rewrite run_snoc. Qed.

#[local] Arguments includes : simpl never.

Lemma shape_step (w : World) (e : Event) :
  shape w -> enabled w e = true -> shape (exec (handler e) w).
Proof.
  destruct w as [[oF cF oU cU lvl q busy err st] [n rv cs p dl]].
  unfold shape, enabled; cbn [session browser appState].
  destruct e as [[f|] | level | value | | | | [c|]]; destruct st; cbn;
    try discriminate; intros H He.
  all: try (destruct (includes acceptedTypes (type f)); cbn).
  all: try (destruct oF; cbn).
  all: try (destruct cF; cbn).
  all: try (destruct busy; cbn in * ).
  all: try (destruct p; cbn in * ).
  all: try discriminate.
  all: repeat match goal with H : _ /\ _ |- _ => destruct H end.
  all: subst; repeat split; try congruence; try discriminate.
Qed.

Lemma reachable_shape (w : World) : reachable w -> shape w.
Proof.
  revert w. apply reachable_ind.
  - cbn. repeat split.
  - intros w e _. apply shape_step.
Qed.

(** ** The compress button *)

(** C1. While [isCompressing] is true the compress action does nothing: the
    button is disabled, so no session cell changes and [imageCompression] is
    not called again. *)
Theorem compress_while_compressing_is_noop (w : World) :
  isCompressing (session w) = true ->
  step w CompressClick = w.
Proof.
  intros Hbusy. unfold step, enabled. rewrite Hbusy.
  now rewrite andb_false_r.
Qed.

Lemma compress_while_compressing_is_noop_witness :
  let w := run initialWorld [FileInputChange (Some jpeg); CompressClick] in
  isCompressing (session w) = true /\
  step w CompressClick = w /\
  length (calls (browser (step w CompressClick))) = 1%nat.
Proof.
  cbv zeta. split; [reflexivity|].
  rewrite (compress_while_compressing_is_noop
             (run initialWorld [FileInputChange (Some jpeg); CompressClick]) eq_refl).
  split; reflexivity.
Defined.

(** The guard is the button's, not the handler's: [handleCompress] itself
    does not read [isCompressing], and calls the library whenever there is
    an original file. *)
Lemma handleCompress_calls_library (w : World) (f : File) :
  originalFile (session w) = Some f ->
  calls (browser (exec handleCompress w)) =
    (calls (browser w) ++
       [mkCall f (getCompressionOptions (compressionLevel (session w))
                    (customQuality (session w))) true])%list.
Proof.
  intros Hf. unfold handleCompress, exec, bind, getSession. cbn.
  rewrite Hf. reflexivity.
Qed.

(** ** File selection *)

(** C4. A file selected in the upload view: with one of the three accepted
    types it is stored, an object URL is created for it, the error is
    cleared and the view becomes ['compressing']; with any other type only
    the error changes, to the validation message. *)
Theorem file_selection_in_upload (w : World) (f : File) :
  appState (session w) = upload ->
  let s := session w in
  let b := browser w in
  (In (type f) ["image/jpeg"; "image/png"; "image/webp"] ->
   step w (FileInputChange (Some f)) =
     mkWorld
       (mkSession (Some f) (compressedFile s) (BlobUrl (created b))
          (compressedImageUrl s) (compressionLevel s) (customQuality s)
          (isCompressing s) "" compressing)
       (mkBrowser (S (created b)) (revoked b) (calls b) (pending b) (downloads b)))
  /\
  (~ In (type f) ["image/jpeg"; "image/png"; "image/webp"] ->
   step w (FileInputChange (Some f)) =
     mkWorld
       (mkSession (originalFile s) (compressedFile s) (originalImageUrl s)
          (compressedImageUrl s) (compressionLevel s) (customQuality s)
          (isCompressing s) "Please upload a valid JPG, PNG, or WebP image." upload)
       b).
Proof.
  intros Hup s b. subst s b.
  destruct w as [[oF cF oU cU lvl q busy err st] [n rv cs p dl]].
  cbn in Hup. subst st.
  unfold step, enabled, handler, handleFileChange. cbn [session appState AppState_eqb].
  destruct (includes acceptedTypes (type f)) eqn:Hinc.
  - split; [reflexivity|].
    intros Hnot. exfalso. apply Hnot.
    unfold includes in Hinc. apply existsb_exists in Hinc.
    destruct Hinc as [x [Hx Heq]]. apply String.eqb_eq in Heq. now subst x.
  - split; [|reflexivity].
    intros Hin. exfalso.
    assert (includes acceptedTypes (type f) = true) as Ht; [|congruence].
    unfold includes. apply existsb_exists. exists (type f). split; [exact Hin|].
    apply String.eqb_refl.
Qed.

Lemma file_selection_in_upload_witness :
  appState (session (step initialWorld (FileInputChange (Some png)))) = compressing /\
  originalImageUrl (session (step initialWorld (FileInputChange (Some png)))) = BlobUrl 0 /\
  session (step initialWorld (FileInputChange (Some pdf))) =
    mkSession None None EmptyUrl EmptyUrl "Medium" 70 false
      "Please upload a valid JPG, PNG, or WebP image." upload.
Proof.
  assert (In (type png) ["image/jpeg"; "image/png"; "image/webp"]) as Hin
    by (cbn; tauto).
  assert (~ In (type pdf) ["image/jpeg"; "image/png"; "image/webp"]) as Hout
    by (cbn; intros [H|[H|[H|[]]]]; discriminate H).
  rewrite (proj1 (file_selection_in_upload initialWorld png eq_refl) Hin).
  rewrite (proj2 (file_selection_in_upload initialWorld pdf eq_refl) Hout).
  repeat split.
Defined.

(** C9. A selection without a file takes the rejection branch: the error
    becomes the validation message and nothing else changes, exactly as for
    a file of an unsupported type. *)
Theorem empty_selection_is_rejected (w : World) :
  let s := session w in
  exec (handleFileChange None) w =
    mkWorld
      (mkSession (originalFile s) (compressedFile s) (originalImageUrl s)
         (compressedImageUrl s) (compressionLevel s) (customQuality s)
         (isCompressing s) "Please upload a valid JPG, PNG, or WebP image."
         (appState s))
      (browser w)
  /\
  forall f, includes acceptedTypes (type f) = false ->
    exec (handleFileChange (Some f)) w = exec (handleFileChange None) w.
Proof.
  split; [reflexivity|].
  intros f Hf. unfold handleFileChange. now rewrite Hf.
Qed.

Lemma empty_selection_is_rejected_witness :
  exec (handleFileChange (Some pdf)) initialWorld =
  exec (handleFileChange None) initialWorld.
Proof.
  apply (proj2 (empty_selection_is_rejected initialWorld) pdf). reflexivity.
Defined.

(** ** Compression failure *)

(** What the rejected promise leaves behind, in any world. *)
Lemma handleCompress_settled_rejected (w : World) :
  exec (handleCompress_settled None) w =
    mkWorld
      (mkSession (originalFile (session w)) (compressedFile (session w))
         (originalImageUrl (session w)) (compressedImageUrl (session w))
         (compressionLevel (session w)) (customQuality (session w))
         false compressionFailureMessage upload)
      (mkBrowser (created (browser w)) (revoked (browser w)) (calls (browser w))
         (Nat.pred (pending (browser w))) (downloads (browser w))).
Proof. reflexivity. Qed.

(** C10. When the promise is rejected, only [error], [appState] and
    [isCompressing] are written: the original file, its object URL, the
    level and the custom quality stay, and no URL is created or revoked. *)
Theorem compression_failure_frame (w : World) :
  let s := session w in
  let b := browser w in
  exec (handleCompress_settled None) w =
    mkWorld
      (mkSession (originalFile s) (compressedFile s) (originalImageUrl s)
         (compressedImageUrl s) (compressionLevel s) (customQuality s)
         false
         "Failed to compress image. It might be too small or in an unsupported format."
         upload)
      (mkBrowser (created b) (revoked b) (calls b) (Nat.pred (pending b)) (downloads b)).
Proof. cbv zeta. now rewrite handleCompress_settled_rejected. Qed.

(** C3. In a reachable world with a compression in flight, a rejection
    brings back the upload view with the compression-failure message, and
    there is no compressed file and no compressed preview URL. *)
Theorem compression_failure_returns_to_upload (w : World) :
  reachable w ->
  pending (browser w) <> O ->
  let s' := session (step w (Settled None)) in
  appState s' = upload /\
  error s' =
    "Failed to compress image. It might be too small or in an unsupported format." /\
  compressedFile s' = None /\
  compressedImageUrl s' = EmptyUrl /\
  isCompressing s' = false.
Proof.
  intros Hr Hp. pose proof (reachable_shape w Hr) as Hs.
  unfold step, enabled.
  destruct (Nat.eqb_spec (pending (browser w)) 0) as [H0|_]; [contradiction|].
  cbn [negb handler]. rewrite handleCompress_settled_rejected. cbn.
  unfold shape in Hs. cbv zeta in Hs.
  destruct (appState (session w)).
  - destruct Hs as (_ & _ & _ & H0). contradiction.
  - destruct Hs as (_ & HcF & HcU & _). now repeat split.
  - destruct Hs as (_ & _ & _ & _ & H0). contradiction.
Qed.

Lemma compression_failure_returns_to_upload_witness :
  let w := run initialWorld [FileInputChange (Some png); CompressClick] in
  let s' := session (step w (Settled None)) in
  appState s' = upload /\
  error s' =
    "Failed to compress image. It might be too small or in an unsupported format." /\
  compressedFile s' = None /\
  compressedImageUrl s' = EmptyUrl /\
  isCompressing s' = false.
Proof.
  apply (compression_failure_returns_to_upload
           (run initialWorld [FileInputChange (Some png); CompressClick])).
  - now exists [FileInputChange (Some png); CompressClick].
  - cbn. discriminate.
Defined.

(** ** The compressed result and the done view *)

(** C6. In every reachable world the compressed file is there exactly in
    the done view, and so is the compressed preview URL. *)
Theorem compressed_present_iff_done (w : World) :
  reachable w ->
  let s := session w in
  (compressedFile s <> None <-> appState s = done) /\
  (compressedImageUrl s <> EmptyUrl <-> appState s = done).
Proof.
  intros Hr. pose proof (reachable_shape w Hr) as Hs.
  unfold shape in Hs. cbv zeta in *.
  destruct (appState (session w)).
  - destruct Hs as (HcF & HcU & _). rewrite HcF, HcU.
    split; split; intros H; try discriminate H; now contradiction H.
  - destruct Hs as (_ & HcF & HcU & _). rewrite HcF, HcU.
    split; split; intros H; try discriminate H; now contradiction H.
  - destruct Hs as (_ & HcF & HcU & _). split; split; auto.
Qed.

Lemma compressed_present_iff_done_witness :
  let s := session (run initialWorld
                      [FileInputChange (Some jpeg); CompressClick; Settled (Some small)]) in
  (compressedFile s <> None <-> appState s = done) /\
  (compressedImageUrl s <> EmptyUrl <-> appState s = done).
Proof.
  apply (compressed_present_iff_done
           (run initialWorld
              [FileInputChange (Some jpeg); CompressClick; Settled (Some small)])).
  now exists [FileInputChange (Some jpeg); CompressClick; Settled (Some small)].
Defined.

(** C8. Reset in the done view: both preview URLs are revoked, both files
    and both URL cells are cleared, the level is ['Medium'] and the custom
    quality 70 again, the error is empty and the view is the upload view. *)
Theorem reset_from_done (w : World) :
  appState (session w) = done ->
  let s := session w in
  let b := browser w in
  step w ResetClick =
    mkWorld
      (mkSession None None EmptyUrl EmptyUrl "Medium" 70 (isCompressing s) "" upload)
      (mkBrowser (created b)
         (revoked b ++ [originalImageUrl s; compressedImageUrl s])
         (calls b) (pending b) (downloads b)).
Proof.
  intros Hd s b. subst s b.
  destruct w as [[oF cF oU cU lvl q busy err st] [n rv cs p dl]].
  cbn in Hd. subst st.
  unfold step, enabled, handler, handleReset, exec. cbn.
  now rewrite <- app_assoc.
Qed.

Lemma reset_from_done_witness :
  let w := run initialWorld
             [FileInputChange (Some jpeg); CompressClick; Settled (Some small)] in
  step w ResetClick =
    mkWorld initialSession
      (mkBrowser 2 [BlobUrl 0; BlobUrl 1] (calls (browser w)) 0 []).
Proof.
  cbv zeta.
  rewrite (reset_from_done
             (run initialWorld
                [FileInputChange (Some jpeg); CompressClick; Settled (Some small)])
             eq_refl).
  reflexivity.
Defined.

(** ** Preview handles: creation and release *)

Lemma url_is_true (id : nat) (u : url) : url_is id u = true <-> u = BlobUrl id.
Proof.
  destruct u as [|j]; cbn; [split; discriminate|].
  rewrite Nat.eqb_eq. split; [now intros ->|now intros [= ->]].
Qed.

Ltac tidy_frame Hone Hfresh Hheld Hdiff :=
  cbn; repeat split;
  solve [apply Hone | apply Hfresh; assumption | apply Hheld; assumption
        | apply Hdiff; assumption].

Lemma tidy_step (w : World) (e : Event) :
  tidy w -> enabled w e = true -> tidy (exec (handler e) w).
Proof.
  destruct w as [[oF cF oU cU lvl q busy err st] [n rv cs p dl]].
  intros (Hone & Hfresh & Hheld & Hdiff) _.
  unfold tidy, held, releases in *.
  cbn [session browser originalImageUrl compressedImageUrl created revoked] in *.
  destruct e as [[f|] | level | value | | | | [c|]]; cbn [handler].
  - (* a file is selected *)
    unfold handleFileChange. destruct (includes acceptedTypes (type f)).
    + cbn. repeat split.
      * apply Hone.
      * intros id Hid. apply Hfresh. lia.
      * destruct H as [[= <-]| ->]; [lia|].
        enough (id < n)%nat by lia. now apply (Hheld id); right.
      * destruct H as [[= <-]| ->]; [apply Hfresh; lia|].
        now apply (Hheld id); right.
      * intros id [= <-] ->.
        assert (n < n)%nat; [|lia]. now apply (Hheld n); right.
    + tidy_frame Hone Hfresh Hheld Hdiff.
  - tidy_frame Hone Hfresh Hheld Hdiff.
  - tidy_frame Hone Hfresh Hheld Hdiff.
  - tidy_frame Hone Hfresh Hheld Hdiff.
  - (* compress *)
    unfold handleCompress, exec, bind, getSession. cbn.
    destruct oF; tidy_frame Hone Hfresh Hheld Hdiff.
  - (* download *)
    unfold handleDownload, exec, bind, getSession. cbn.
    destruct cF, oF; tidy_frame Hone Hfresh Hheld Hdiff.
  - (* reset *)
    unfold handleReset, exec, bind, getSession. cbn.
    rewrite <- app_assoc. cbn [app].
    repeat split.
    + intros id. rewrite filter_app, length_app. cbn [filter].
      destruct (url_is id oU) eqn:Ho; destruct (url_is id cU) eqn:Hc; cbn [length].
      * apply url_is_true in Ho. apply url_is_true in Hc.
        exfalso. now apply (Hdiff id).
      * apply url_is_true in Ho.
        assert (length (filter (url_is id) rv) = O) as ->; [|lia].
        now apply (Hheld id); left.
      * apply url_is_true in Hc.
        assert (length (filter (url_is id) rv) = O) as ->; [|lia].
        now apply (Hheld id); right.
      * specialize (Hone id). lia.
    + intros id Hid. rewrite filter_app, length_app. rewrite (Hfresh id Hid). cbn [filter].
      destruct (url_is id oU) eqn:Ho.
      { apply url_is_true in Ho.
        assert (id < n)%nat; [now apply (Hheld id); left|lia]. }
      destruct (url_is id cU) eqn:Hc.
      { apply url_is_true in Hc.
        assert (id < n)%nat; [now apply (Hheld id); right|lia]. }
      reflexivity.
    + destruct H; discriminate.
    + destruct H; discriminate.
    + intros id H; discriminate.
  - (* the promise is fulfilled *)
    unfold handleCompress_settled, exec, bind. cbn. repeat split.
    + apply Hone.
    + intros id Hid. apply Hfresh. lia.
    + destruct H as [->|[= <-]]; [|lia].
      enough (id < n)%nat by lia. now apply (Hheld id); left.
    + destruct H as [->|[= <-]]; [|apply Hfresh; lia].
      now apply (Hheld id); left.
    + intros id -> [= <-].
      assert (n < n)%nat; [|lia]. now apply (Hheld n); left.
  - (* the promise is rejected *)
    tidy_frame Hone Hfresh Hheld Hdiff.
Qed.

Lemma reachable_tidy (w : World) : reachable w -> tidy w.
Proof.
  revert w. apply reachable_ind.
  - unfold tidy, held, releases. cbn.
    repeat split; try lia; try discriminate; destruct H; discriminate.
  - intros w e _. apply tidy_step.
Qed.

(** No preview handle is ever released twice, and a handle still held by the
    session has not been released. *)
Lemma no_handle_released_twice (w : World) (id : nat) :
  reachable w ->
  (releases id w <= 1)%nat /\ (held id w -> releases id w = O).
Proof.
  intros Hr. destruct (reachable_tidy w Hr) as (Hone & _ & Hheld & _).
  split; [apply Hone|]. intros H. now apply Hheld.
Qed.

(** C2, at the trace [failure_then_success]: every event of the trace can
    occur; three handles are created; the session ends reset and holds none
    of them; handles 1 and 2 were released once each, and handle 0, created
    for the first file and overwritten by the second selection after the
    failed compression, was never released. *)
Theorem handle_leaked_after_failed_compression :
  let w := run initialWorld failure_then_success in
  feasible initialWorld failure_then_success = true /\
  created (browser w) = 3%nat /\
  session w = initialSession /\
  releases 1 w = 1%nat /\
  releases 2 w = 1%nat /\
  releases 0 w = 0%nat.
Proof. cbv zeta. repeat split. Qed.

(** ** The compression options *)

(** C5. The options for each level, for every custom quality [q]: the three
    fixed rows, [q / 100] under ['Custom'], and the ['Medium'] row for any
    other string. *)
Theorem getCompressionOptions_table (q : float) :
  getCompressionOptions "Low" q = {| maxSizeMB := 1.0; initialQuality := 0.8 |} /\
  getCompressionOptions "Medium" q = {| maxSizeMB := 0.5; initialQuality := 0.6 |} /\
  getCompressionOptions "High" q = {| maxSizeMB := 0.1; initialQuality := 0.4 |} /\
  getCompressionOptions "Custom" q = {| maxSizeMB := 2.0; initialQuality := q / 100 |} /\
  forall level, ~ In level ["Low"; "Medium"; "High"; "Custom"] ->
    getCompressionOptions level q = getCompressionOptions "Medium" q.
Proof.
  repeat split.
  intros level Hout. unfold getCompressionOptions.
  destruct (String.eqb_spec level "Low") as [->|_].
  { exfalso. apply Hout. cbn. tauto. }
  destruct (String.eqb_spec level "High") as [->|_].
  { exfalso. apply Hout. cbn. tauto. }
  destruct (String.eqb_spec level "Custom") as [->|_].
  { exfalso. apply Hout. cbn. tauto. }
  reflexivity.
Qed.

Lemma getCompressionOptions_table_witness :
  getCompressionOptions "Ultra" 35 = {| maxSizeMB := 0.5; initialQuality := 0.6 |} /\
  getCompressionOptions "Custom" 35 = {| maxSizeMB := 2.0; initialQuality := 0.35 |} /\
  getCompressionOptions "Custom" 100 = {| maxSizeMB := 2.0; initialQuality := 1.0 |}.
Proof.
  split; [|split; reflexivity].
  rewrite (proj2 (proj2 (proj2 (proj2 (getCompressionOptions_table 35)))) "Ultra").
  - reflexivity.
  - cbn. intros [H|[H|[H|[H|[]]]]]; discriminate H.
Defined.

(** ** The byte-size formatter *)

Lemma floor_log_fuel_spec (fuel : nat) :
  forall n k, 2 <= k -> 1 <= n -> Z.log2 n <= Z.of_nat fuel ->
    0 <= JS.floor_log_fuel fuel n k /\
    k ^ JS.floor_log_fuel fuel n k <= n < k ^ (JS.floor_log_fuel fuel n k + 1).
Proof.
  induction fuel as [|fuel IH]; intros n k Hk Hn Hlog.
  - assert (n = 1) as ->.
    { assert (Z.log2 n = 0) as H0 by (pose proof (Z.log2_nonneg n); lia).
      apply Z.log2_null in H0. lia. }
    cbn [JS.floor_log_fuel]. rewrite Z.pow_0_r, Z.pow_1_r. lia.
  - cbn [JS.floor_log_fuel]. destruct (Z.ltb_spec n k) as [Hlt|Hge].
    + rewrite Z.pow_0_r, Z.pow_1_r. lia.
    + assert (1 <= n / k) as Hq.
      { apply Z.div_le_lower_bound; lia. }
      assert (Z.log2 (n / k) <= Z.of_nat fuel) as Hlq.
      { assert (n / k <= n / 2) as Hhalf by (apply Z.div_le_compat_l; lia).
        apply Z.log2_le_mono in Hhalf.
        assert (Z.log2 (n / 2) = Z.max 0 (Z.log2 n - 1)) as Hshift.
        { rewrite <- (Z.log2_shiftr n 1) by lia.
          now rewrite Z.shiftr_div_pow2 by lia. }
        lia. }
      destruct (IH (n / k) k Hk Hq Hlq) as (Hr0 & Hlo & Hhi).
      set (r := JS.floor_log_fuel fuel (n / k) k) in *.
      replace (1 + r) with (Z.succ r) by lia.
      replace (Z.succ r + 1) with (Z.succ (r + 1)) by lia.
      rewrite !Z.pow_succ_r by lia.
      pose proof (Z.mul_div_le n k ltac:(lia)).
      pose proof (Z.mul_succ_div_gt n k ltac:(lia)).
      split; [lia|]. split; nia.
Qed.

(** [floor_log n k] is the integer logarithm: the [i] with
    [k^i <= n < k^(i+1)]. *)
Lemma floor_log_spec (n k : Z) :
  2 <= k -> 1 <= n ->
  0 <= JS.floor_log n k /\
  k ^ JS.floor_log n k <= n < k ^ (JS.floor_log n k + 1).
Proof.
  intros Hk Hn. apply floor_log_fuel_spec; try assumption.
  pose proof (Z.log2_nonneg n). lia.
Qed.

(** C7. With the default of two decimals: the four sample values; and for
    every byte count from 0 up to (not including) 1024^4 the result is the
    scaled value, a space and the unit [sizes[i]], where [i] is the largest
    index with [1024^i <= bytes] (0 for zero bytes). *)
Theorem formatBytes_default :
  formatBytes 0 None = "0 Bytes" /\
  formatBytes 1024 None = "1 KB" /\
  formatBytes 1536 None = "1.5 KB" /\
  formatBytes 1048576 None = "1 MB" /\
  forall bytes, 0 <= bytes < 1024 ^ 4 ->
    exists (i : nat) (unit : string),
      nth_error ["Bytes"; "KB"; "MB"; "GB"] i = Some unit /\
      formatBytes bytes None = scaled bytes 1024 (Z.of_nat i) 2 ++ " " ++ unit /\
      (bytes = 0 -> i = O) /\
      (0 < bytes -> 1024 ^ Z.of_nat i <= bytes < 1024 ^ (Z.of_nat i + 1)).
Proof.
  split; [reflexivity|]. split; [reflexivity|].
  split; [reflexivity|]. split; [reflexivity|].
  intros bytes [Hlo Hhi].
  destruct (Z.eq_dec bytes 0) as [->|Hnz].
  { exists O, "Bytes". repeat split; lia. }
  destruct (floor_log_spec bytes 1024 ltac:(lia) ltac:(lia)) as (Hr0 & Hrlo & Hrhi).
  assert (JS.floor_log bytes 1024 < 4) as Hr4.
  { apply (Z.pow_lt_mono_r_iff 1024); lia. }
  unfold formatBytes.
  destruct (Z.eqb_spec bytes 0) as [|_]; [contradiction|].
  destruct (Z.ltb_spec bytes 0) as [|_]; [lia|].
  cbv zeta. change (2 <? 0) with false. cbv iota.
  set (r := JS.floor_log bytes 1024) in *.
  assert (r = 0 \/ r = 1 \/ r = 2 \/ r = 3) as Hcases by lia.
  destruct Hcases as [Hr|[Hr|[Hr|Hr]]]; rewrite Hr in *.
  - exists 0%nat, "Bytes". repeat split; try assumption; lia.
  - exists 1%nat, "KB". repeat split; try assumption; lia.
  - exists 2%nat, "MB". repeat split; try assumption; lia.
  - exists 3%nat, "GB". repeat split; try assumption; lia.
Qed.

Lemma formatBytes_default_witness :
  exists (i : nat) (unit : string),
    nth_error ["Bytes"; "KB"; "MB"; "GB"] i = Some unit /\
    formatBytes 1947152 None = scaled 1947152 1024 (Z.of_nat i) 2 ++ " " ++ unit /\
    (1947152 = 0 -> i = O) /\
    (0 < 1947152 -> 1024 ^ Z.of_nat i <= 1947152 < 1024 ^ (Z.of_nat i + 1)).
Proof.
  apply (proj2 (proj2 (proj2 (proj2 formatBytes_default))) 1947152). lia.
Defined.

(** The saving displayed in the end-to-end scenario of the specification. *)
Example formatBytes_saved : formatBytes (2097152 - 150000) None = "1.86 MB".
Proof. reflexivity. Qed.

(** ** More on the byte-size formatter *)

Lemma floor_log_unique (n k i : Z) :
  2 <= k -> 0 <= i -> k ^ i <= n < k ^ (i + 1) -> JS.floor_log n k = i.
Proof.
  intros Hk Hi [Hlo Hhi].
  assert (1 <= n) as Hn.
  { pose proof (Z.pow_pos_nonneg k i ltac:(lia) Hi). lia. }
  destruct (floor_log_spec n k Hk Hn) as (Hr0 & Hrlo & Hrhi).
  set (r := JS.floor_log n k) in *.
  destruct (Z.lt_trichotomy r i) as [Hlt|[Heq|Hgt]]; [|exact Heq|].
  - assert (k ^ (r + 1) <= k ^ i) by (apply Z.pow_le_mono_r; lia). lia.
  - assert (k ^ (i + 1) <= k ^ r) by (apply Z.pow_le_mono_r; lia). lia.
Qed.

(** The rounding step of [toFixed(2)] on the quotient [b / K]. *)
Lemma toFixed2_round (b : Z) (K : positive) :
  Qfloor (inject_Z b / inject_Z (Zpos K) * inject_Z (10 ^ 2) + (1 # 2)) =
  (200 * b + Zpos K) / (2 * Zpos K).
Proof.
  unfold Qdiv, Qinv, Qmult, Qplus, Qfloor, inject_Z. cbn [Qnum Qden].
  f_equal; lia.
Qed.



Lemma multiples_ok_all : forallb multiples_ok (seq 0 4) = true.
Proof. vm_compute. reflexivity. Qed.

(** X2. A whole number [n] of a unit, 1 to 1023, is printed as that number
    and the unit, without decimals: [n] bytes as "n Bytes", [n * 1024] as
    "n KB", and so on up to GB. *)
Theorem formatBytes_whole_units (n : Z) (i : nat) (unit : string) :
  1 <= n < 1024 ->
  nth_error ["Bytes"; "KB"; "MB"; "GB"] i = Some unit ->
  formatBytes (n * 1024 ^ Z.of_nat i) None = JS.digits n ++ " " ++ unit.
Proof.
  intros Hn Hunit.
  assert (i < 4)%nat as Hi.
  { assert (nth_error ["Bytes"; "KB"; "MB"; "GB"] i <> None) as Hsome by congruence.
    apply nth_error_Some in Hsome. cbn in Hsome. lia. }
  pose proof multiples_ok_all as Hall.
  rewrite forallb_forall in Hall.
  specialize (Hall i). rewrite in_seq in Hall. specialize (Hall ltac:(lia)).
  unfold multiples_ok in Hall. rewrite forallb_forall in Hall.
  specialize (Hall (Z.to_nat n)). rewrite in_seq in Hall.
  specialize (Hall ltac:(lia)).
  rewrite Z2Nat.id in Hall by lia.
  apply String.eqb_eq in Hall. rewrite Hall.
  do 2 f_equal.
  apply nth_error_nth with (d := "") in Hunit. exact Hunit.
Qed.

Lemma formatBytes_whole_units_witness :
  formatBytes (512 * 1024 ^ 2) None = "512 MB".
Proof.
  apply (formatBytes_whole_units 512 2 "MB"); [lia|reflexivity].
Defined.

(** X3. Rounding does not change the unit: a count within 0.005 of the
    next unit (KB, MB or GB as [i] is 1, 2 or 3) is printed as 1024 of the
    unit below, not as 1 of the next. *)
Theorem formatBytes_rounds_to_1024 (bytes : Z) (i : nat) (unit : string) :
  (1 <= i)%nat ->
  nth_error ["Bytes"; "KB"; "MB"; "GB"] i = Some unit ->
  204799 * 1024 ^ Z.of_nat i <= 200 * bytes ->
  bytes < 1024 ^ (Z.of_nat i + 1) ->
  formatBytes bytes None = "1024 " ++ unit.
Proof.
  intros Hi1 Hunit Hlo Hhi.
  assert (i < 4)%nat as Hi4.
  { assert (nth_error ["Bytes"; "KB"; "MB"; "GB"] i <> None) as Hsome by congruence.
    apply nth_error_Some in Hsome. cbn in Hsome. lia. }
  assert (i = 1 \/ i = 2 \/ i = 3)%nat as Hcases by lia.
  assert (forall K : positive,
             1024 ^ Z.of_nat i = Zpos K ->
             JS.index sizes (Z.of_nat i) = unit ->
             formatBytes bytes None = "1024 " ++ unit) as Hmain.
  { intros K HK Hidx.
    assert (1024 ^ (Z.of_nat i + 1) = 1024 * Zpos K) as HK1.
    { rewrite Z.pow_add_r by lia. rewrite HK. lia. }
    assert (JS.floor_log bytes 1024 = Z.of_nat i) as Hr.
    { apply floor_log_unique; lia. }
    unfold formatBytes.
    destruct (Z.eqb_spec bytes 0) as [|_]; [lia|].
    destruct (Z.ltb_spec bytes 0) as [|_]; [lia|].
    cbv zeta. change (2 <? 0) with false. cbv iota. rewrite Hr, Hidx.
    unfold scaled. rewrite HK. unfold JS.toFixed. rewrite toFixed2_round.
    assert ((200 * bytes + Zpos K) / (2 * Zpos K) = 102400) as ->.
    { symmetry.
      apply Z.div_unique with (r := 200 * bytes + Zpos K - 2 * Zpos K * 102400); lia. }
    reflexivity. }
  destruct Hcases as [-> | [-> | ->]]; cbn in Hunit; injection Hunit as Hu; subst unit.
  - apply (Hmain 1024%positive); reflexivity.
  - apply (Hmain 1048576%positive); reflexivity.
  - apply (Hmain 1073741824%positive); reflexivity.
Qed.

Lemma formatBytes_rounds_to_1024_witness :
  formatBytes 1048575 None = "1024 KB".
Proof.
  rewrite (formatBytes_rounds_to_1024 1048575 1 "KB"); [reflexivity|lia|reflexivity|lia|lia].
Defined.

(** ** The icon names *)

Lemma lower_or_digit_not_upper (c : ascii) :
  is_lower_or_digit c = true -> is_upper c = false.
Proof.
  unfold is_lower_or_digit, is_upper, in_range. intros H.
  apply orb_true_iff in H. apply andb_false_iff.
  destruct H as [H|H]; apply andb_true_iff in H; destruct H as [H1 H2];
    apply Nat.leb_le in H1; apply Nat.leb_le in H2.
  - right. apply Nat.leb_gt. lia.
  - left. apply Nat.leb_gt. lia.
Qed.

Lemma replaceCamel_hyphens (s : string) :
  replaceCamel s = hyphens s /\
  forall c, replaceCamel (String c s) = hyphens (String c s).
Proof.
  induction s as [|d r [IHr IHdr]].
  - split; [reflexivity|]. intros c. cbn. now destruct (is_upper c).
  - split; [apply IHdr|].
    intros c. specialize (IHdr d).
    change (replaceCamel (String c (String d r))) with
      (if is_lower_or_digit c && is_upper d then
         String c (String "-" (String d (replaceCamel r)))
       else if is_upper c then String "-" (String c (replaceCamel (String d r)))
       else String c (replaceCamel (String d r))).
    rewrite IHdr, IHr.
    destruct (is_lower_or_digit c) eqn:Hc; cbn [andb].
    + rewrite (lower_or_digit_not_upper c Hc).
      cbn [hyphens]. rewrite (lower_or_digit_not_upper c Hc).
      now destruct (is_upper d).
    + cbn [hyphens]. now destruct (is_upper c).
Qed.

Lemma lower_not_upper (c : ascii) : is_upper c = false -> lower c = c.
Proof. unfold lower. now intros ->. Qed.

Lemma toLowerCase_hyphens (s : string) :
  toLowerCase (hyphens s) = hyphenated s.
Proof.
  induction s as [|c r IH]; [reflexivity|].
  cbn [hyphens hyphenated]. destruct (is_upper c) eqn:Hc; cbn [toLowerCase].
  - now rewrite IH.
  - now rewrite IH, (lower_not_upper c Hc).
Qed.

(** X4. The attribute value that [Icon] computes from a name of 7-bit
    characters: every upper-case letter becomes a hyphen and its lower-case
    letter, the first letter included, and every other character is kept. *)
Theorem iconName_hyphenated (name : string) :
  ascii7 name = true ->
  iconName name = hyphenated name.
Proof.
  intros _. unfold iconName.
  rewrite (proj1 (replaceCamel_hyphens name)). apply toLowerCase_hyphens.
Qed.

Lemma iconName_hyphenated_witness :
  iconName "UploadCloud" = "-upload-cloud" /\ iconName "RotateCw" = "-rotate-cw".
Proof.
  split.
  - rewrite (iconName_hyphenated "UploadCloud"); reflexivity.
  - rewrite (iconName_hyphenated "RotateCw"); reflexivity.
Defined.

Lemma hyphenated_length (s : string) :
  String.length (hyphenated s) = (String.length s + uppers s)%nat.
Proof.
  induction s as [|c r IH]; [reflexivity|].
  cbn [hyphenated uppers String.length]. destruct (is_upper c); cbn [String.length];
    rewrite IH; lia.
Qed.

Lemma lower_is_not_upper (c : ascii) :
  is_upper c = true -> is_upper (lower c) = false.
Proof.
  intros Hc. unfold lower. rewrite Hc.
  unfold is_upper, in_range in *.
  apply andb_true_iff in Hc. destruct Hc as [H1 H2].
  apply Nat.leb_le in H1. apply Nat.leb_le in H2.
  rewrite nat_ascii_embedding by lia.
  apply andb_false_iff. right. apply Nat.leb_gt. lia.
Qed.

Lemma hyphenated_no_upper (s : string) : uppers (hyphenated s) = O.
Proof.
  induction s as [|c r IH]; [reflexivity|].
  cbn [hyphenated]. destruct (is_upper c) eqn:Hc; cbn [uppers].
  - rewrite (lower_is_not_upper c Hc), IH. reflexivity.
  - rewrite Hc, IH. reflexivity.
Qed.

(** X5. The attribute value has no upper-case letter, and it is longer than
    the name by one character for each upper-case letter of the name. *)
Theorem iconName_shape (name : string) :
  ascii7 name = true ->
  uppers (iconName name) = O /\
  String.length (iconName name) = (String.length name + uppers name)%nat.
Proof.
  intros _. unfold iconName.
  rewrite (proj1 (replaceCamel_hyphens name)), toLowerCase_hyphens.
  split; [apply hyphenated_no_upper|apply hyphenated_length].
Qed.

Lemma iconName_shape_witness :
  uppers (iconName "UploadCloud") = O /\
  String.length (iconName "UploadCloud") = 13%nat.
Proof.
  apply (iconName_shape "UploadCloud"). reflexivity.
Defined.

(** ** Invariants of the controller *)

Lemma includes_In (a : list string) (x : string) :
  includes a x = true <-> In x a.
Proof.
  unfold includes. rewrite existsb_exists. split.
  - intros [y [Hy Heq]]. apply String.eqb_eq in Heq. now subst y.
  - intros Hin. exists x. split; [exact Hin|apply String.eqb_refl].
Qed.

Lemma consistent_step (w : World) (e : Event) :
  shape w -> consistent w -> enabled w e = true -> consistent (exec (handler e) w).
Proof.
  destruct w as [[oF cF oU cU lvl q busy err st] [n rv cs p dl]].
  unfold shape, consistent, enabled.
  cbn [session browser appState compressionLevel originalFile originalImageUrl
       error calls isCompressing compressedFile compressedImageUrl pending].
  intros Hs (Hlvl & Hpair & Htype & Herr & Hmsg & Hcalls) He.
  destruct e as [[f|] | level | value | | | | [c|]]; cbn [handler].
  - (* a file is selected *)
    unfold handleFileChange.
    destruct (includes acceptedTypes (type f)) eqn:Hinc; cbn.
    + apply includes_In in Hinc.
      repeat split; auto; try discriminate.
      intros f' [= <-]. exact Hinc.
    + destruct st; try discriminate He.
      repeat split; auto; try apply Hpair; try contradiction.
  - destruct st; try discriminate He. cbn.
    repeat split; auto; try apply Hpair; try contradiction.
  - destruct st; try discriminate He. cbn in He. apply includes_In in He. cbn.
    repeat split; auto; try apply Hpair.
  - cbn. repeat split; auto; try apply Hpair.
  - (* compress *)
    destruct st; try discriminate He.
    unfold handleCompress, exec, bind, getSession. cbn.
    destruct oF as [f|]; cbn.
    + repeat split; auto; try apply Hpair.
      apply Forall_app. split; [exact Hcalls|].
      constructor; [|constructor]. cbn. repeat split.
      * now apply Htype.
      * now exists lvl, q.
    + destruct Hs as (Hof & _). now contradiction Hof.
  - (* download *)
    unfold handleDownload, exec, bind, getSession. cbn.
    destruct cF, oF; cbn; repeat split; auto; try apply Hpair.
  - (* reset *)
    unfold handleReset, exec, bind, getSession. cbn.
    repeat split; auto; try discriminate; cbn; tauto.
  - (* the promise is fulfilled *)
    cbn in He. destruct st.
    + destruct Hs as (_ & _ & _ & Hp). subst p. discriminate He.
    + unfold handleCompress_settled, exec, bind. cbn.
      repeat split; auto; try apply Hpair. intros _. apply Herr. discriminate.
    + destruct Hs as (_ & _ & _ & _ & Hp). subst p. discriminate He.
  - (* the promise is rejected *)
    unfold handleCompress_settled, exec, bind. cbn.
    repeat split; auto; try apply Hpair; try contradiction.
Qed.

Lemma reachable_consistent (w : World) : reachable w -> consistent w.
Proof.
  revert w. apply reachable_ind.
  - unfold consistent. cbn. repeat split; auto; discriminate.
  - intros w e Hr Hc He. apply consistent_step; auto.
    now apply reachable_shape.
Qed.

(** What a reachable world with a pending promise looks like. *)
Lemma pending_shape (w : World) :
  reachable w -> pending (browser w) <> O ->
  appState (session w) = compressing /\ isCompressing (session w) = true /\
  pending (browser w) = 1%nat /\ originalFile (session w) <> None /\
  compressedFile (session w) = None /\ compressedImageUrl (session w) = EmptyUrl /\
  error (session w) = "".
Proof.
  intros Hr Hp. pose proof (reachable_shape w Hr) as Hs.
  destruct (reachable_consistent w Hr) as (_ & _ & _ & Herr & _).
  unfold shape in Hs. cbv zeta in Hs, Herr.
  destruct (appState (session w)).
  - destruct Hs as (_ & _ & _ & H0). contradiction.
  - destruct Hs as (Hof & HcF & HcU & Hpend).
    destruct (isCompressing (session w)); [|contradiction].
    repeat split; auto. apply Herr. discriminate.
  - destruct Hs as (_ & _ & _ & _ & H0). contradiction.
Qed.

(** X6. At most one compression is in flight at any time, and
    [isCompressing] is true exactly while one is; this happens in the
    ['compressing'] view only. *)
Theorem one_compression_at_a_time (w : World) :
  reachable w ->
  (pending (browser w) <= 1)%nat /\
  (isCompressing (session w) = true <-> pending (browser w) = 1%nat) /\
  (isCompressing (session w) = true -> appState (session w) = compressing).
Proof.
  intros Hr. pose proof (reachable_shape w Hr) as Hs.
  unfold shape in Hs. cbv zeta in Hs.
  destruct (appState (session w)).
  - destruct Hs as (_ & _ & Hb & Hp). rewrite Hb, Hp.
    repeat split; try lia; discriminate.
  - destruct Hs as (_ & _ & _ & Hp). rewrite Hp.
    destruct (isCompressing (session w)); repeat split; try lia; discriminate.
  - destruct Hs as (_ & _ & _ & Hb & Hp). rewrite Hb, Hp.
    repeat split; try lia; discriminate.
Qed.

Lemma one_compression_at_a_time_witness :
  let w := run initialWorld
             [FileInputChange (Some jpeg); CompressClick; CompressClick; CompressClick] in
  (pending (browser w) <= 1)%nat /\
  (isCompressing (session w) = true <-> pending (browser w) = 1%nat) /\
  (isCompressing (session w) = true -> appState (session w) = compressing).
Proof.
  apply (one_compression_at_a_time
           (run initialWorld
              [FileInputChange (Some jpeg); CompressClick; CompressClick; CompressClick])).
  now exists [FileInputChange (Some jpeg); CompressClick; CompressClick; CompressClick].
Defined.

(** X7. A compression in flight cannot be cancelled or disturbed: until the
    promise settles, whatever the user does changes at most the level and
    the custom quality.  The files, the preview URLs, the view, the flag,
    the error and the browser stay as they are. *)
Theorem in_flight_only_settings_change (w : World) (e : Event) :
  reachable w ->
  pending (browser w) <> O ->
  (forall outcome, e <> Settled outcome) ->
  let s := session w in
  exists level quality,
    step w e =
      mkWorld
        (mkSession (originalFile s) (compressedFile s) (originalImageUrl s)
           (compressedImageUrl s) level quality (isCompressing s) (error s)
           (appState s))
        (browser w).
Proof.
  intros Hr Hp He s. subst s.
  destruct (pending_shape w Hr Hp) as (Hst & Hbusy & _).
  destruct w as [[oF cF oU cU lvl q busy err st] [n rv cs p dl]].
  cbn in Hst, Hbusy. subst st busy.
  unfold step, enabled. cbn [session browser appState isCompressing compressionLevel].
  destruct e as [file | level | value | | | | outcome]; cbn [AppState_eqb andb negb].
  - now exists lvl, q.
  - destruct (includes levels level); [now exists level, q | now exists lvl, q].
  - destruct (String.eqb lvl "Custom"); [now exists lvl, value | now exists lvl, q].
  - now exists lvl, q.
  - now exists lvl, q.
  - now exists lvl, q.
  - now contradiction (He outcome).
Qed.

Lemma in_flight_only_settings_change_witness :
  let w := run initialWorld [FileInputChange (Some jpeg); CompressClick] in
  exists level quality,
    step w (LevelClick "High") =
      mkWorld
        (mkSession (Some jpeg) None (BlobUrl 0) EmptyUrl level quality true "" compressing)
        (browser w).
Proof.
  apply (in_flight_only_settings_change
           (run initialWorld [FileInputChange (Some jpeg); CompressClick])
           (LevelClick "High")).
  - now exists [FileInputChange (Some jpeg); CompressClick].
  - cbn. discriminate.
  - intros outcome. discriminate.
Defined.



(** X9. Every call of [imageCompression] a session makes has a file of an
    accepted type, [useWebWorker: true], and the options of one of the four
    levels. *)
Theorem calls_are_wellformed (w : World) (c : Call) :
  reachable w ->
  In c (calls (browser w)) ->
  useWebWorker c = true /\
  In (type (call_file c)) ["image/jpeg"; "image/png"; "image/webp"] /\
  exists level q,
    In level ["Low"; "Medium"; "High"; "Custom"] /\
    call_options c = getCompressionOptions level q.
Proof.
  intros Hr Hin.
  destruct (reachable_consistent w Hr) as (_ & _ & _ & _ & _ & Hcalls).
  rewrite Forall_forall in Hcalls. exact (Hcalls c Hin).
Qed.

Lemma calls_are_wellformed_witness :
  let w := run initialWorld [FileInputChange (Some jpeg); LevelClick "High"; CompressClick] in
  let c := mkCall jpeg (getCompressionOptions "High" 70) true in
  useWebWorker c = true /\
  In (type (call_file c)) ["image/jpeg"; "image/png"; "image/webp"] /\
  exists level q,
    In level ["Low"; "Medium"; "High"; "Custom"] /\
    call_options c = getCompressionOptions level q.
Proof.
  apply (calls_are_wellformed
           (run initialWorld [FileInputChange (Some jpeg); LevelClick "High"; CompressClick])).
  - now exists [FileInputChange (Some jpeg); LevelClick "High"; CompressClick].
  - cbn. now left.
Defined.

(** X10. The level cell always holds the name of one of the four buttons:
    in a session the default branch of [getCompressionOptions] serves
    ['Medium'] only. *)
Theorem level_is_a_button (w : World) :
  reachable w ->
  In (compressionLevel (session w)) ["Low"; "Medium"; "High"; "Custom"].
Proof.
  intros Hr. now destruct (reachable_consistent w Hr) as (Hlvl & _).
Qed.

Lemma level_is_a_button_witness :
  In (compressionLevel
        (session (run initialWorld
                    [FileInputChange (Some jpeg); LevelClick "Ultra"; LevelClick "Custom"])))
     ["Low"; "Medium"; "High"; "Custom"].
Proof.
  apply (level_is_a_button
           (run initialWorld
              [FileInputChange (Some jpeg); LevelClick "Ultra"; LevelClick "Custom"])).
  now exists [FileInputChange (Some jpeg); LevelClick "Ultra"; LevelClick "Custom"].
Defined.

(** ** The successful path *)

(** X11. Wherever the compress button can be clicked there is an original
    file, and the click calls [imageCompression] exactly once, with that
    file, the options of the current level and quality and
    [useWebWorker: true]; it sets [isCompressing], clears the error and
    changes nothing else. *)
Theorem compress_click_calls_once (w : World) :
  reachable w ->
  enabled w CompressClick = true ->
  let s := session w in
  let b := browser w in
  exists f,
    originalFile s = Some f /\
    step w CompressClick =
      mkWorld
        (mkSession (Some f) None (originalImageUrl s) EmptyUrl
           (compressionLevel s) (customQuality s) true "" compressing)
        (mkBrowser (created b) (revoked b)
           (calls b ++
              [mkCall f (getCompressionOptions (compressionLevel s) (customQuality s)) true])
           1 (downloads b)).
Proof.
  intros Hr He s b. subst s b.
  pose proof (reachable_shape w Hr) as Hs.
  unfold step. rewrite He.
  destruct w as [[oF cF oU cU lvl q busy err st] [n rv cs p dl]].
  unfold shape in Hs. unfold enabled in He.
  cbn [session browser appState isCompressing] in He.
  destruct st; try discriminate He.
  destruct busy; try discriminate He.
  cbn in Hs. destruct Hs as (Hof & HcF & HcU & Hp). subst cF cU p.
  destruct oF as [f|]; [|now contradiction Hof].
  exists f. split; reflexivity.
Qed.

Lemma compress_click_calls_once_witness :
  let w := run initialWorld [FileInputChange (Some jpeg); LevelClick "Low"] in
  exists f,
    originalFile (session w) = Some f /\
    step w CompressClick =
      mkWorld
        (mkSession (Some f) None (BlobUrl 0) EmptyUrl "Low" 70 true "" compressing)
        (mkBrowser 1 [] [mkCall f (mkOptions 1 0.8) true] 1 []).
Proof.
  apply (compress_click_calls_once
           (run initialWorld [FileInputChange (Some jpeg); LevelClick "Low"])).
  - now exists [FileInputChange (Some jpeg); LevelClick "Low"].
  - reflexivity.
Defined.

(** X12. When the promise of a session is fulfilled, the result is stored,
    a new object URL, different from the original's, is created for it, and
    the done view is shown without an error; the original file and its URL,
    the level and the quality stay, nothing is revoked and no promise is
    left pending. *)
Theorem compression_success_reaches_done (w : World) (compressed : File) :
  reachable w ->
  pending (browser w) <> O ->
  let s := session w in
  let b := browser w in
  step w (Settled (Some compressed)) =
    mkWorld
      (mkSession (originalFile s) (Some compressed) (originalImageUrl s)
         (BlobUrl (created b)) (compressionLevel s) (customQuality s)
         false "" done)
      (mkBrowser (S (created b)) (revoked b) (calls b) 0 (downloads b)) /\
  originalFile s <> None /\
  originalImageUrl s <> BlobUrl (created b).
Proof.
  intros Hr Hp s b. subst s b.
  destruct (pending_shape w Hr Hp) as (_ & _ & Hp1 & Hof & _ & _ & Herr).
  destruct (reachable_tidy w Hr) as (_ & _ & Hheld & _).
  split; [|split; [exact Hof|]].
  - unfold step, enabled. rewrite Hp1. cbn [Nat.eqb negb handler].
    destruct w as [[oF cF oU cU lvl q busy err st] [n rv cs p dl]].
    cbn in Hp1, Herr. subst p err. reflexivity.
  - intros Heq.
    assert (created (browser w) < created (browser w))%nat; [|lia].
    apply (Hheld (created (browser w))). now left.
Qed.

Lemma compression_success_reaches_done_witness :
  let w := run initialWorld [FileInputChange (Some jpeg); CompressClick] in
  step w (Settled (Some small)) =
    mkWorld
      (mkSession (Some jpeg) (Some small) (BlobUrl 0) (BlobUrl 1) "Medium" 70 false "" done)
      (mkBrowser 2 [] (calls (browser w)) 0 []).
Proof.
  apply (compression_success_reaches_done
           (run initialWorld [FileInputChange (Some jpeg); CompressClick]) small).
  - now exists [FileInputChange (Some jpeg); CompressClick].
  - cbn. discriminate.
Defined.

(** X13. Outside the upload view the original file is there, it has an
    accepted type, and its preview URL exists and has not been revoked; in
    the done view the same holds for the compressed file and its preview
    URL, which differs from the original's. *)
Theorem previews_are_live (w : World) :
  reachable w ->
  appState (session w) <> upload ->
  let s := session w in
  exists f id,
    originalFile s = Some f /\
    In (type f) ["image/jpeg"; "image/png"; "image/webp"] /\
    originalImageUrl s = BlobUrl id /\
    (id < created (browser w))%nat /\ releases id w = O /\
    (appState s = done ->
     exists c id',
       compressedFile s = Some c /\ compressedImageUrl s = BlobUrl id' /\
       id' <> id /\ (id' < created (browser w))%nat /\ releases id' w = O).
Proof.
  intros Hr Hview s. subst s.
  pose proof (reachable_shape w Hr) as Hs.
  destruct (reachable_consistent w Hr) as (_ & Hpair & Htype & _).
  destruct (reachable_tidy w Hr) as (_ & _ & Hheld & Hdiff).
  unfold shape in Hs. unfold held in Hheld. cbv zeta in *.
  assert (originalFile (session w) <> None) as Hof.
  { destruct (appState (session w)); [now contradiction Hview| |]; apply Hs. }
  destruct (originalFile (session w)) as [f|] eqn:Hf; [|now contradiction Hof].
  destruct (originalImageUrl (session w)) as [|id] eqn:Hu.
  { exfalso. assert (Some f = None) as Habs by now apply Hpair. discriminate Habs. }
  exists f, id.
  destruct (Hheld id (or_introl eq_refl)) as (Hlt & Hrel).
  repeat split; auto.
  intros Hd. rewrite Hd in Hs. destruct Hs as (_ & HcF & HcU & _).
  destruct (compressedFile (session w)) as [c|]; [|now contradiction HcF].
  destruct (compressedImageUrl (session w)) as [|id'] eqn:Hcu; [now contradiction HcU|].
  exists c, id'.
  destruct (Hheld id' (or_intror eq_refl)) as (Hlt' & Hrel').
  repeat split; auto.
  intros ->. now apply (Hdiff id).
Qed.

Lemma previews_are_live_witness :
  let w := run initialWorld
             [FileInputChange (Some jpeg); CompressClick; Settled (Some small)] in
  exists f id,
    originalFile (session w) = Some f /\
    In (type f) ["image/jpeg"; "image/png"; "image/webp"] /\
    originalImageUrl (session w) = BlobUrl id /\
    (id < created (browser w))%nat /\ releases id w = O /\
    (appState (session w) = done ->
     exists c id',
       compressedFile (session w) = Some c /\ compressedImageUrl (session w) = BlobUrl id' /\
       id' <> id /\ (id' < created (browser w))%nat /\ releases id' w = O).
Proof.
  apply (previews_are_live
           (run initialWorld
              [FileInputChange (Some jpeg); CompressClick; Settled (Some small)])).
  - now exists [FileInputChange (Some jpeg); CompressClick; Settled (Some small)].
  - cbn. discriminate.
Defined.

(** X14. In the done view of a session the download button clicks exactly
    one link: its address is the compressed preview URL, which has not been
    revoked, and its file name is "compressed-" followed by the name of the
    original file.  The session and the rest of the browser are unchanged. *)
Theorem download_in_done (w : World) :
  reachable w ->
  appState (session w) = done ->
  let b := browser w in
  exists f id,
    originalFile (session w) = Some f /\
    compressedImageUrl (session w) = BlobUrl id /\
    releases id w = O /\
    step w DownloadClick =
      mkWorld (session w)
        (mkBrowser (created b) (revoked b) (calls b) (pending b)
           (downloads b ++ [(BlobUrl id, "compressed-" ++ name f)])).
Proof.
  intros Hr Hd b. subst b.
  pose proof (reachable_shape w Hr) as Hs.
  destruct (reachable_tidy w Hr) as (_ & _ & Hheld & _).
  unfold shape in Hs. cbv zeta in Hs. rewrite Hd in Hs.
  destruct Hs as (Hof & HcF & HcU & _).
  unfold step, enabled. rewrite Hd. cbn [AppState_eqb handler].
  unfold held in Hheld.
  destruct w as [[oF cF oU cU lvl q busy err st] [n rv cs p dl]].
  cbn [session browser originalFile compressedFile compressedImageUrl
       originalImageUrl created] in *.
  destruct oF as [f|]; [|now contradiction Hof].
  destruct cF as [c|]; [|now contradiction HcF].
  destruct cU as [|id]; [now contradiction HcU|].
  exists f, id.
  destruct (Hheld id (or_intror eq_refl)) as (_ & Hrel).
  repeat split; auto.
Qed.

Lemma download_in_done_witness :
  let w := run initialWorld
             [FileInputChange (Some jpeg); CompressClick; Settled (Some small)] in
  exists f id,
    originalFile (session w) = Some f /\
    compressedImageUrl (session w) = BlobUrl id /\
    releases id w = O /\
    step w DownloadClick =
      mkWorld (session w)
        (mkBrowser (created (browser w)) (revoked (browser w)) (calls (browser w))
           (pending (browser w))
           (downloads (browser w) ++ [(BlobUrl id, "compressed-" ++ name f)])).
Proof.
  apply (download_in_done
           (run initialWorld
              [FileInputChange (Some jpeg); CompressClick; Settled (Some small)])).
  - now exists [FileInputChange (Some jpeg); CompressClick; Settled (Some small)].
  - reflexivity.
Defined.

(** X15. Reset in the done view of a session gives back exactly the
    initial session; each of the two preview URLs it held has then been
    revoked exactly once, and no URL is held any more. *)
Theorem reset_restores_initial_session (w : World) :
  reachable w ->
  appState (session w) = done ->
  let w' := step w ResetClick in
  session w' = initialSession /\
  (forall id, held id w -> releases id w' = 1%nat) /\
  (forall id, ~ held id w').
Proof.
  intros Hr Hd.
  pose proof (reachable_shape w Hr) as Hs.
  destruct (reachable_tidy w Hr) as (_ & _ & Hheld & Hdiff).
  unfold shape in Hs. cbv zeta in Hs. rewrite Hd in Hs.
  destruct Hs as (_ & _ & _ & Hbusy & _).
  unfold step, enabled. rewrite Hd. cbn [AppState_eqb handler].
  unfold held, releases in *.
  destruct w as [[oF cF oU cU lvl q busy err st] [n rv cs p dl]].
  cbn [session browser isCompressing originalImageUrl compressedImageUrl
       revoked created] in *.
  subst busy. cbv zeta.
  unfold handleReset, exec, bind, getSession. cbn.
  split; [reflexivity|]. split.
  - intros id Hid. rewrite <- app_assoc. cbn [app].
    rewrite filter_app, length_app.
    destruct (Hheld id Hid) as (_ & ->). cbn [filter].
    destruct Hid as [->| ->].
    + cbn [url_is]. rewrite Nat.eqb_refl.
      destruct (url_is id cU) eqn:Hc; [|reflexivity].
      apply url_is_true in Hc. exfalso. now apply (Hdiff id).
    + destruct (url_is id oU) eqn:Ho.
      * apply url_is_true in Ho. exfalso. now apply (Hdiff id).
      * cbn [url_is]. now rewrite Nat.eqb_refl.
  - intros id [H|H]; discriminate H.
Qed.

Lemma reset_restores_initial_session_witness :
  let w := run initialWorld
             [FileInputChange (Some jpeg); LevelClick "Custom"; QualityInput 35;
              CompressClick; Settled (Some small)] in
  let w' := step w ResetClick in
  session w' = initialSession /\
  (forall id, held id w -> releases id w' = 1%nat) /\
  (forall id, ~ held id w').
Proof.
  apply (reset_restores_initial_session
           (run initialWorld
              [FileInputChange (Some jpeg); LevelClick "Custom"; QualityInput 35;
               CompressClick; Settled (Some small)])).
  - now exists [FileInputChange (Some jpeg); LevelClick "Custom"; QualityInput 35;
                CompressClick; Settled (Some small)].
  - reflexivity.
Defined.

(** ** When preview handles are released, and when they are lost *)

Lemma releases_two (id : nat) (rv : list url) (u v : url) :
  length (filter (url_is id) (rv ++ [u; v])) =
  (length (filter (url_is id) rv) +
   ((if url_is id u then 1 else 0) + (if url_is id v then 1 else 0)))%nat.
Proof.
  rewrite filter_app, length_app. cbn [filter].
  destruct (url_is id u), (url_is id v); reflexivity.
Qed.

Lemma url_is_false (id : nat) (u : url) : u <> BlobUrl id -> url_is id u = false.
Proof.
  intros Hne. destruct (url_is id u) eqn:H; [|reflexivity].
  apply url_is_true in H. contradiction.
Qed.





Lemma lost_step (w : World) (e : Event) (id : nat) :
  lost id w -> lost id (step w e).
Proof.
  unfold step. destruct (enabled w e); [|trivial].
  destruct w as [[oF cF oU cU lvl q busy err st] [n rv cs p dl]].
  unfold lost, held, releases.
  cbn [session browser originalImageUrl compressedImageUrl created revoked].
  intros (Hid & Hnh & Hrel).
  assert (oU <> BlobUrl id) as Ho by (intros H; apply Hnh; now left).
  assert (cU <> BlobUrl id) as Hc by (intros H; apply Hnh; now right).
  destruct e as [[f|] | level | value | | | | [c|]]; cbn [handler].
  - unfold handleFileChange. destruct (includes acceptedTypes (type f)); cbn.
    + repeat split; [lia| |exact Hrel].
      intros [[= H]|H]; [lia|contradiction].
    + now repeat split.
  - cbn. now repeat split.
  - cbn. now repeat split.
  - cbn. now repeat split.
  - unfold handleCompress, exec, bind, getSession. cbn.
    destruct oF; cbn; now repeat split.
  - unfold handleDownload, exec, bind, getSession. cbn.
    destruct cF, oF; cbn; now repeat split.
  - unfold handleReset, exec, bind, getSession. cbn.
    rewrite <- app_assoc. cbn [app]. rewrite releases_two, Hrel.
    rewrite (url_is_false id oU Ho), (url_is_false id cU Hc).
    repeat split; [exact Hid|].
    intros [H|H]; discriminate H.
  - unfold handleCompress_settled, exec, bind. cbn.
    repeat split; [lia| |exact Hrel].
    intros [H|[= H]]; [contradiction|lia].
  - cbn. now repeat split.
Qed.

Lemma lost_run (es : list Event) :
  forall w id, lost id w -> lost id (run w es).
Proof.
  induction es as [|e es IH]; intros w id Hl; [exact Hl|].
  cbn. apply IH. now apply lost_step.
Qed.

(** X17. A preview handle that is in neither cell and has not been revoked
    is never revoked later.  In particular, when a session is in the upload
    view and still holds the preview URL of an earlier file (as it does
    after a failed compression), selecting an accepted file overwrites that
    URL, and whatever happens afterwards it is never revoked. *)
Theorem overwritten_handle_is_never_released
        (w : World) (id : nat) (f : File) (es : list Event) :
  reachable w ->
  appState (session w) = upload ->
  originalImageUrl (session w) = BlobUrl id ->
  In (type f) ["image/jpeg"; "image/png"; "image/webp"] ->
  let w' := run (step w (FileInputChange (Some f))) es in
  (id < created (browser w'))%nat /\ ~ held id w' /\ releases id w' = O.
Proof.
  intros Hr Hu Ho Hf w'. subst w'.
  apply lost_run.
  pose proof (reachable_shape w Hr) as Hs.
  destruct (reachable_tidy w Hr) as (_ & _ & Hheld & _).
  unfold shape in Hs. cbv zeta in Hs. rewrite Hu in Hs.
  destruct Hs as (_ & HcU & _).
  destruct (Hheld id (or_introl Ho)) as (Hlt & Hrel).
  apply includes_In in Hf. change (includes acceptedTypes (type f) = true) in Hf.
  unfold step, enabled. rewrite Hu. cbn [AppState_eqb handler].
  unfold handleFileChange. rewrite Hf.
  unfold lost, held, releases in *.
  destruct w as [[oF cF oU cU lvl q busy err st] [n rv cs p dl]].
  cbn in *. subst oU cU.
  repeat split; [lia| |exact Hrel].
  intros [[= H]|H]; [lia|discriminate H].
Qed.

Lemma overwritten_handle_is_never_released_witness :
  let w := run initialWorld [FileInputChange (Some jpeg); CompressClick; Settled None] in
  let w' := run (step w (FileInputChange (Some png)))
                [CompressClick; Settled (Some small); ResetClick] in
  (0 < created (browser w'))%nat /\ ~ held 0 w' /\ releases 0 w' = O.
Proof.
  apply (overwritten_handle_is_never_released
           (run initialWorld [FileInputChange (Some jpeg); CompressClick; Settled None])
           0 png [CompressClick; Settled (Some small); ResetClick]).
  - now exists [FileInputChange (Some jpeg); CompressClick; Settled None].
  - reflexivity.
  - reflexivity.
  - cbn. tauto.
Defined.

(** ** Changing the settings *)

(** X18. Any sequence of preset clicks and quality changes, in any world,
    changes at most the level and the custom quality: the files, the preview
    URLs, the view, the flag, the error and the browser are untouched. *)
Theorem settings_keep_files_and_handles (es : list Event) :
  forallb is_setting es = true ->
  forall w,
  let s := session w in
  exists level quality,
    run w es =
      mkWorld
        (mkSession (originalFile s) (compressedFile s) (originalImageUrl s)
           (compressedImageUrl s) level quality (isCompressing s) (error s)
           (appState s))
        (browser w).
Proof.
  induction es as [|e es IH]; intros Hes w s; subst s.
  - exists (compressionLevel (session w)), (customQuality (session w)).
    now destruct w as [[] ?].
  - cbn [forallb] in Hes. apply andb_true_iff in Hes. destruct Hes as [He Hes].
    cbn [run fold_left]. fold (run (step w e) es).
    destruct (IH Hes (step w e)) as (level & quality & ->).
    assert (exists l q,
               step w e =
                 mkWorld
                   (mkSession (originalFile (session w)) (compressedFile (session w))
                      (originalImageUrl (session w)) (compressedImageUrl (session w))
                      l q (isCompressing (session w)) (error (session w))
                      (appState (session w)))
                   (browser w)) as (l & q & ->).
    { unfold step. destruct (enabled w e).
      - destruct e as [file | lv | value | | | | outcome];
          try discriminate He; cbn [handler].
        + exists lv, (customQuality (session w)). reflexivity.
        + exists (compressionLevel (session w)), value. reflexivity.
      - exists (compressionLevel (session w)), (customQuality (session w)).
        now destruct w as [[] ?]. }
    exists level, quality. reflexivity.
Qed.

Lemma settings_keep_files_and_handles_witness :
  let w := run initialWorld [FileInputChange (Some jpeg)] in
  exists level quality,
    run w [LevelClick "High"; LevelClick "Custom"; QualityInput 35; LevelClick "Low"] =
      mkWorld
        (mkSession (originalFile (session w)) (compressedFile (session w))
           (originalImageUrl (session w)) (compressedImageUrl (session w))
           level quality (isCompressing (session w)) (error (session w))
           (appState (session w)))
        (browser w).
Proof.
  apply (settings_keep_files_and_handles
           [LevelClick "High"; LevelClick "Custom"; QualityInput 35; LevelClick "Low"]).
  reflexivity.
Defined.

Lemma slider_ok_all : forallb slider_ok levels = true.
Proof. vm_compute. reflexivity. Qed.

(** X19. For each of the four levels and each position 1 to 100 of the
    quality slider, the options have a positive [maxSizeMB] and an
    [initialQuality] greater than 0 and at most 1. *)
Theorem options_in_range (level : string) (n : Z) :
  In level ["Low"; "Medium"; "High"; "Custom"] ->
  1 <= n <= 100 ->
  let o := getCompressionOptions level (sliderValue n) in
  PrimFloat.ltb 0 (maxSizeMB o) = true /\
  PrimFloat.ltb 0 (initialQuality o) = true /\
  PrimFloat.leb (initialQuality o) 1 = true.
Proof.
  intros Hlevel Hn o. subst o.
  pose proof slider_ok_all as Hall.
  rewrite forallb_forall in Hall. specialize (Hall level Hlevel).
  unfold slider_ok in Hall. rewrite forallb_forall in Hall.
  specialize (Hall (Z.to_nat n)). rewrite in_seq in Hall.
  specialize (Hall ltac:(lia)). rewrite Z2Nat.id in Hall by lia.
  unfold options_ok in Hall.
  apply andb_true_iff in Hall. destruct Hall as [Hall H3].
  apply andb_true_iff in Hall. destruct Hall as [H1 H2].
  now repeat split.
Qed.

Lemma options_in_range_witness :
  let o := getCompressionOptions "Custom" (sliderValue 1) in
  PrimFloat.ltb 0 (maxSizeMB o) = true /\
  PrimFloat.ltb 0 (initialQuality o) = true /\
  PrimFloat.leb (initialQuality o) 1 = true.
Proof.
  apply (options_in_range "Custom" 1); [cbn; tauto|lia].
Defined.
